(** * Offer search service (main.py): model and properties

    A shallow embedding of the FastAPI handlers of [main.py]: the in-memory
    offer list [offers_db], the three handlers [create_offers], [get_offers]
    and [delete_offers], and the two helpers [matches_filters] and
    [compute_aggregations].

    Python integers are unbounded, so they are [Z].  Python strings are
    compared by code point; identifiers are ASCII (UUIDs), so they are
    [string] with the lexicographic [String.compare].  Python lists are
    mutable objects: they live in a heap indexed by locations, so that the
    in-place [list.sort] of [get_offers] acts on one particular object. *)

From Stdlib Require Import ZArith String List Lia Bool.
From Stdlib Require Import Sorting.Sorted Sorting.Permutation.
From stdpp Require Import base option list sorting gmap strings.

Local Open Scope string_scope.
Local Open Scope Z_scope.

(** ** Data models (main.py, lines 12-58) *)

Record Offer := mkOffer {
  ID : string;
  data : string;
  mostSpecificRegionID : Z;
  startDate : Z;
  endDate : Z;
  numberSeats : Z;
  price : Z;
  carType : string;
  hasVollkasko : bool;
  freeKilometers : Z
}.

Record SearchResultOffer := mkSearchResultOffer {
  sr_ID : string;
  sr_data : string
}.

Record PriceRange := mkPriceRange {
  pr_start : Z;
  pr_end : Z;
  pr_count : Z
}.

Record CarTypeCount := mkCarTypeCount {
  small : Z;
  sports : Z;
  luxury : Z;
  family : Z
}.

Record SeatsCount := mkSeatsCount {
  sc_numberSeats : Z;
  sc_count : Z
}.

Record FreeKilometerRange := mkFreeKilometerRange {
  fk_start : Z;
  fk_end : Z;
  fk_count : Z
}.

Record VollkaskoCount := mkVollkaskoCount {
  trueCount : Z;
  falseCount : Z
}.

Record GetOffersResponse := mkGetOffersResponse {
  offers : list SearchResultOffer;
  priceRanges : list PriceRange;
  carTypeCounts : CarTypeCount;
  seatsCount : list SeatsCount;
  freeKilometerRange : list FreeKilometerRange;
  vollkaskoCount : VollkaskoCount
}.

(** The query parameters of [GET /api/offers] (lines 88-104); the six
    optional ones default to [None]. *)
Record Query := mkQuery {
  regionID : Z;
  timeRangeStart : Z;
  timeRangeEnd : Z;
  numberDays : Z;
  sortOrder : string;
  page : Z;
  pageSize : Z;
  priceRangeWidth : Z;
  minFreeKilometerWidth : Z;
  minNumberSeats : option Z;
  minPrice : option Z;
  maxPrice : option Z;
  q_carType : option string;
  onlyVollkasko : option bool;
  minFreeKilometer : option Z
}.

(** Values stored in the filter dictionaries. *)
Inductive PyVal :=
| VInt (n : Z)
| VStr (s : string)
| VBool (b : bool).

(** The body of a handler answering with a status message. *)
Record StatusMessage := mkStatusMessage {
  status : string;
  message : string
}.

(** Modelled from the spec: the region tree that [regions.json] holds.  The
    source loads the file into [regions_data] with [json.load] and never
    reads it afterwards, so its shape is that of the spec's Region Node: an
    identifier and the child regions. *)
#[local] Set Warnings "-register-all".
Inductive RegionNode :=
| Region (region_id : Z) (subregions : list RegionNode).

(** ** The heap of list objects and the handler monad *)

Definition loc := nat.

(** [regions_data] is [None] for the empty dictionary used when the regions
    file is missing (lines 70-72). *)
Record World := mkWorld {
  heap : gmap loc (list Offer);
  regions_data : option RegionNode
}.

(** The module-level list [offers_db] (line 61) is the first object. *)
Definition offers_db : loc := 0%nat.

Definition init_world (regions : option RegionNode) : World :=
  mkWorld {[ offers_db := [] ]} regions.

(** A handler computes over the world and may fail on a dangling name. *)
Definition M (A : Type) : Type := World -> option (A * World).

#[global] Instance M_ret : MRet M := fun A (a : A) w => Some (a, w).

#[global] Instance M_bind : MBind M := fun A B (k : A -> M B) (m : M A) w =>
  match m w with
  | Some (a, w') => k a w'
  | None => None
  end.

Definition read (l : loc) : M (list Offer) :=
  fun w => match heap w !! l with
           | Some v => Some (v, w)
           | None => None
           end.

Definition write (l : loc) (v : list Offer) : M unit :=
  fun w => match heap w !! l with
           | Some _ => Some (tt, mkWorld (<[l := v]> (heap w)) (regions_data w))
           | None => None
           end.

(** A new list object at a location not in use. *)
Definition alloc (v : list Offer) : M loc :=
  fun w => let l := fresh (dom (heap w)) in
           Some (l, mkWorld (<[l := v]> (heap w)) (regions_data w)).

(** ** Python list operations *)

(** [l[start:stop]]: a negative index counts from the end, and both indices
    are clamped to the list. *)
Definition adjust_index (i len : Z) : Z :=
  if i <? 0 then Z.max (i + len) 0 else Z.min i len.

Definition slice {A} (l : list A) (start stop : Z) : list A :=
  let len := Z.of_nat (length l) in
  let lo := adjust_index start len in
  let hi := adjust_index stop len in
  take (Z.to_nat (hi - lo)) (drop (Z.to_nat lo) l).

(** The sort key [(x['price'], x['ID'])] and the order of tuples: the first
    components decide unless they are equal. *)
Definition sort_key (x : Offer) : Z * string := (price x, ID x).

Definition key_lt (k1 k2 : Z * string) : bool :=
  (k1.1 <? k2.1) || ((k1.1 =? k2.1) && String.ltb k1.2 k2.2).

(** [list.sort] is stable and compares keys with [<] only.  A stable sort has
    one possible result, given here by insertion; [x] goes in front of the
    first element that is not smaller, so equal keys keep their order. *)
Fixpoint insert_sorted (x : Offer) (l : list Offer) : list Offer :=
  match l with
  | [] => [x]
  | y :: l' =>
      if key_lt (sort_key y) (sort_key x) then y :: insert_sorted x l'
      else x :: y :: l'
  end.

Definition stable_sort (l : list Offer) : list Offer :=
  foldr insert_sorted [] l.

(** With [reverse=True] the list is reversed, sorted, and reversed again,
    which keeps the original order among equal keys. *)
Definition sorted_list (reverse : bool) (l : list Offer) : list Offer :=
  if reverse then rev (stable_sort (rev l)) else stable_sort l.

(** [l.sort(key=..., reverse=...)], in place. *)
Definition list_sort (l : loc) (reverse : bool) : M unit :=
  v ← read l;
  write l (sorted_list reverse v).

(** ** Helper functions (lines 165-188) *)

Definition matches_filters (offer : Offer)
    (mandatory_filters : gmap string Z)
    (optional_filters : gmap string PyVal) : bool :=
  true.

Definition compute_aggregations (filtered_offers : list Offer)
    (priceRangeWidth minFreeKilometerWidth : Z)
    (mandatory_filters : gmap string Z)
    (optional_filters : gmap string PyVal)
  : list PriceRange * CarTypeCount * list SeatsCount
    * list FreeKilometerRange * VollkaskoCount :=
  let price_ranges := [] in
  let car_type_counts := mkCarTypeCount 0 0 0 0 in
  let seats_counts := [] in
  let free_kilometer_ranges := [] in
  let vollkasko_counts := mkVollkaskoCount 0 0 in
  (price_ranges, car_type_counts, seats_counts, free_kilometer_ranges,
   vollkasko_counts).

(** ** Handlers *)

(** [POST /api/offers] (lines 76-84): the offers are appended in place. *)
Definition create_offers (new_offers : list Offer) : M StatusMessage :=
  db ← read offers_db;
  write offers_db (db ++ new_offers);;
  mret (mkStatusMessage "success" "Offers created successfully").

(** [DELETE /api/offers] (lines 160-162). *)
Definition delete_offers : M StatusMessage :=
  write offers_db [];;
  mret (mkStatusMessage "success" "All offers deleted").

Definition build_mandatory_filters (q : Query) : gmap string Z :=
  list_to_map
    [("regionID", regionID q);
     ("timeRangeStart", timeRangeStart q);
     ("timeRangeEnd", timeRangeEnd q);
     ("numberDays", numberDays q)].

(** The optional filters, with the [None] values removed (lines 112-122). *)
Definition build_optional_filters (q : Query) : gmap string PyVal :=
  let optional_filters : gmap string (option PyVal) :=
    list_to_map
      [("minNumberSeats", VInt <$> minNumberSeats q);
       ("minPrice", VInt <$> minPrice q);
       ("maxPrice", VInt <$> maxPrice q);
       ("carType", VStr <$> q_carType q);
       ("onlyVollkasko", VBool <$> onlyVollkasko q);
       ("minFreeKilometer", VInt <$> minFreeKilometer q)] in
  omap id optional_filters.

Definition to_search_result (offer : Offer) : SearchResultOffer :=
  mkSearchResultOffer (ID offer) (data offer).

(** [GET /api/offers] (lines 88-156). *)
Definition get_offers (q : Query) : M GetOffersResponse :=
  let mandatory_filters := build_mandatory_filters q in
  let optional_filters := build_optional_filters q in
  db ← read offers_db;
  filtered_offers ←
    alloc (List.filter
             (fun offer =>
                matches_filters offer mandatory_filters optional_filters)
             db);
  let reverse_sort := if String.eqb (sortOrder q) "price-desc"
                      then true else false in
  list_sort filtered_offers reverse_sort;;
  let start_index := (page q - 1) * pageSize q in
  let end_index := start_index + pageSize q in
  sorted ← read filtered_offers;
  let paginated_offers := slice sorted start_index end_index in
  let search_result_offers := map to_search_result paginated_offers in
  '(price_ranges, car_type_counts, seats_counts, free_kilometer_ranges,
    vollkasko_counts) ←
    mret (compute_aggregations sorted (priceRangeWidth q)
            (minFreeKilometerWidth q) mandatory_filters optional_filters);
  mret (mkGetOffersResponse search_result_offers price_ranges
         car_type_counts seats_counts free_kilometer_ranges
         vollkasko_counts).

(** ** Values of the locals of [get_offers]

    What the local variables [filtered_offers] (after the sort) and
    [paginated_offers] hold when [offers_db] holds [db]. *)

Definition reverse_sort (q : Query) : bool :=
  if String.eqb (sortOrder q) "price-desc" then true else false.

Definition filtered_offers (q : Query) (db : list Offer) : list Offer :=
  sorted_list (reverse_sort q)
    (List.filter
       (fun offer =>
          matches_filters offer (build_mandatory_filters q)
            (build_optional_filters q))
       db).

Definition paginated_offers (q : Query) (db : list Offer) : list Offer :=
  slice (filtered_offers q db)
    ((page q - 1) * pageSize q) ((page q - 1) * pageSize q + pageSize q).

(** The contents of the offer store in a world. *)
Definition store (w : World) : option (list Offer) := heap w !! offers_db.

(** The answer of a handler, and the world it leaves. *)
Definition answer {A} (m : M A) (w : World) : option A := fst <$> m w.

Definition after {A} (m : M A) (w : World) : option World := snd <$> m w.

(** The response with an empty page and the empty facets. *)
Definition empty_response : GetOffersResponse :=
  mkGetOffersResponse [] [] (mkCarTypeCount 0 0 0 0) [] []
    (mkVollkaskoCount 0 0).

(** The buckets of a price histogram that contain a price. *)
Definition buckets_of (p : Z) (ranges : list PriceRange) : list PriceRange :=
  List.filter (fun b => (pr_start b <=? p) && (p <? pr_end b)) ranges.

(** ** The query engine as the specification words it

    These definitions follow the specification, not the source; the
    theorems below compare the source with them. *)

(** Modelled from the spec: the identifiers of the closed subtree of a
    region, the region itself first. *)
Fixpoint subtree_ids (n : RegionNode) : list Z :=
  match n with
  | Region i subs =>
      i :: (fix go (l : list RegionNode) : list Z :=
              match l with
              | [] => []
              | c :: l' => (subtree_ids c ++ go l')%list
              end) subs
  end.

(** Modelled from the spec: the node of a region in the tree, if any. *)
Fixpoint find_region (r : Z) (n : RegionNode) : option RegionNode :=
  match n with
  | Region i subs =>
      if i =? r then Some n
      else (fix go (l : list RegionNode) : option RegionNode :=
              match l with
              | [] => None
              | c :: l' =>
                  match find_region r c with
                  | Some m => Some m
                  | None => go l'
                  end
              end) subs
  end.

(** Modelled from the spec: [inSubtree(regionID, candidate)] of the Region
    Index.  A region absent from the tree, and every region when no tree is
    loaded, is a subtree of its own. *)
Definition spec_inSubtree (tree : option RegionNode) (r candidate : Z)
  : bool :=
  match tree ≫= find_region r with
  | Some n => bool_decide (candidate ∈ subtree_ids n)
  | None => r =? candidate
  end.

Definition MS_PER_DAY : Z := 86400000.

(** Modelled from the spec: the region predicate of the evaluator. *)
Definition spec_region_ok (tree : option RegionNode) (q : Query)
    (o : Offer) : bool :=
  spec_inSubtree tree (regionID q) (mostSpecificRegionID o).

(** Modelled from the spec: the availability-window predicate. *)
Definition spec_window_ok (q : Query) (o : Offer) : bool :=
  let lo := Z.max (startDate o) (timeRangeStart q) in
  let hi := Z.min (endDate o) (timeRangeEnd q) in
  numberDays q * MS_PER_DAY <=? hi - lo.

(** Modelled from the spec: an optional predicate holds when its filter is
    absent. *)
Definition when_given {A} (f : option A) (p : A -> bool) : bool :=
  match f with
  | Some v => p v
  | None => true
  end.

(** Modelled from the spec: the optional predicates, all of them. *)
Definition spec_optional_ok (q : Query) (o : Offer) : bool :=
  when_given (minNumberSeats q) (fun m => m <=? numberSeats o)
  && when_given (minPrice q) (fun m => m <=? price o)
  && when_given (maxPrice q) (fun m => price o <? m)
  && when_given (q_carType q) (fun c => String.eqb (carType o) c)
  && when_given (onlyVollkasko q) (fun b => Bool.eqb (hasVollkasko o) b)
  && when_given (minFreeKilometer q) (fun m => m <=? freeKilometers o).

(** Modelled from the spec: [matches(offer, filters)]. *)
Definition spec_matches (tree : option RegionNode) (q : Query) (o : Offer)
  : bool :=
  spec_region_ok tree q o && spec_window_ok q o && spec_optional_ok q o.

(** Modelled from the spec: the filter set with one facet's own dimension
    cleared; region and time window always stay. *)
Definition omit_price (q : Query) : Query :=
  mkQuery (regionID q) (timeRangeStart q) (timeRangeEnd q) (numberDays q)
    (sortOrder q) (page q) (pageSize q) (priceRangeWidth q)
    (minFreeKilometerWidth q) (minNumberSeats q) None None (q_carType q)
    (onlyVollkasko q) (minFreeKilometer q).

Definition omit_carType (q : Query) : Query :=
  mkQuery (regionID q) (timeRangeStart q) (timeRangeEnd q) (numberDays q)
    (sortOrder q) (page q) (pageSize q) (priceRangeWidth q)
    (minFreeKilometerWidth q) (minNumberSeats q) (minPrice q) (maxPrice q)
    None (onlyVollkasko q) (minFreeKilometer q).

Definition omit_seats (q : Query) : Query :=
  mkQuery (regionID q) (timeRangeStart q) (timeRangeEnd q) (numberDays q)
    (sortOrder q) (page q) (pageSize q) (priceRangeWidth q)
    (minFreeKilometerWidth q) None (minPrice q) (maxPrice q) (q_carType q)
    (onlyVollkasko q) (minFreeKilometer q).

Definition omit_freeKm (q : Query) : Query :=
  mkQuery (regionID q) (timeRangeStart q) (timeRangeEnd q) (numberDays q)
    (sortOrder q) (page q) (pageSize q) (priceRangeWidth q)
    (minFreeKilometerWidth q) (minNumberSeats q) (minPrice q) (maxPrice q)
    (q_carType q) (onlyVollkasko q) None.

Definition omit_vollkasko (q : Query) : Query :=
  mkQuery (regionID q) (timeRangeStart q) (timeRangeEnd q) (numberDays q)
    (sortOrder q) (page q) (pageSize q) (priceRangeWidth q)
    (minFreeKilometerWidth q) (minNumberSeats q) (minPrice q) (maxPrice q)
    (q_carType q) None (minFreeKilometer q).

(** Modelled from the spec: the offers a facet is computed over. *)
Definition spec_scope (tree : option RegionNode) (q : Query)
    (db : list Offer) : list Offer :=
  List.filter (spec_matches tree q) db.

(** Modelled from the spec: the non-empty groups of a list of values, in
    ascending order, each with the number of its members. *)
Fixpoint bump (k : Z) (l : list (Z * Z)) : list (Z * Z) :=
  match l with
  | [] => [(k, 1)]
  | (k', c) :: l' =>
      if k <? k' then (k, 1) :: l
      else if k =? k' then (k', c + 1) :: l'
      else (k', c) :: bump k l'
  end.

Definition histogram (keys : list Z) : list (Z * Z) := foldr bump [] keys.

(** Modelled from the spec: bucket [k] of width [w] covers
    [k*w, (k+1)*w). *)
Definition spec_price_buckets (w : Z) (l : list Offer) : list PriceRange :=
  map (fun kc => mkPriceRange (kc.1 * w) ((kc.1 + 1) * w) kc.2)
    (histogram (map (fun o => price o / w) l)).

Definition spec_free_km_buckets (w : Z) (l : list Offer)
  : list FreeKilometerRange :=
  map (fun kc => mkFreeKilometerRange (kc.1 * w) ((kc.1 + 1) * w) kc.2)
    (histogram (map (fun o => freeKilometers o / w) l)).

Definition spec_seat_counts (l : list Offer) : list SeatsCount :=
  map (fun kc => mkSeatsCount kc.1 kc.2) (histogram (map numberSeats l)).

Definition count_where (p : Offer -> bool) (l : list Offer) : Z :=
  Z.of_nat (length (List.filter p l)).

Definition spec_car_type_counts (l : list Offer) : CarTypeCount :=
  mkCarTypeCount
    (count_where (fun o => String.eqb (carType o) "small") l)
    (count_where (fun o => String.eqb (carType o) "sports") l)
    (count_where (fun o => String.eqb (carType o) "luxury") l)
    (count_where (fun o => String.eqb (carType o) "family") l).

Definition spec_vollkasko_counts (l : list Offer) : VollkaskoCount :=
  mkVollkaskoCount
    (count_where hasVollkasko l)
    (count_where (fun o => negb (hasVollkasko o)) l).

(** Modelled from the spec: the five facet summaries of a search, each over
    the offers that satisfy every filter but the facet's own. *)
Definition spec_facets (tree : option RegionNode) (q : Query)
    (db : list Offer)
  : list PriceRange * CarTypeCount * list SeatsCount
    * list FreeKilometerRange * VollkaskoCount :=
  (spec_price_buckets (priceRangeWidth q) (spec_scope tree (omit_price q) db),
   spec_car_type_counts (spec_scope tree (omit_carType q) db),
   spec_seat_counts (spec_scope tree (omit_seats q) db),
   spec_free_km_buckets (minFreeKilometerWidth q)
     (spec_scope tree (omit_freeKm q) db),
   spec_vollkasko_counts (spec_scope tree (omit_vollkasko q) db)).

(** The facet summaries of a response. *)
Definition facets (r : GetOffersResponse)
  : list PriceRange * CarTypeCount * list SeatsCount
    * list FreeKilometerRange * VollkaskoCount :=
  (priceRanges r, carTypeCounts r, seatsCount r, freeKilometerRange r,
   vollkaskoCount r).

(** ** Sample data *)

Definition sample_offer : Offer :=
  mkOffer "a1" "AAAA" 5 0 (10 * 86400000) 4 1000 "small" true 100.

Definition sample_query : Query :=
  mkQuery 1 0 (10 * 86400000) 5 "price-asc" 1 10 500 50
    None None None None None None.

(** The region tree in which region 5 is a child of region 1. *)
Definition sample_tree : RegionNode := Region 1 [Region 5 []; Region 7 []].

Definition world_of (db : list Offer) (regions : option RegionNode) : World :=
  mkWorld {[ offers_db := db ]} regions.

(** ** The world after a search, the order of offers, pages, samples *)

(** The world after a search: one more list object, the sorted copy. *)
Definition searched (q : Query) (db : list Offer) (w : World) : World :=
  let l := fresh (dom (heap w)) in
  mkWorld
    (<[l := filtered_offers q db]>
       (<[l := List.filter
                 (fun offer =>
                    matches_filters offer (build_mandatory_filters q)
                      (build_optional_filters q))
                 db]> (heap w)))
    (regions_data w).

(** [key_le k1 k2]: [k2] is not smaller than [k1]. *)
Definition key_le (k1 k2 : Z * string) : Prop := key_lt k2 k1 = false.

Definition offer_le (a b : Offer) : Prop :=
  key_le (sort_key a) (sort_key b).

Definition offer_ge (a b : Offer) : Prop := offer_le b a.

(** The query for another page of the same search. *)
Definition with_page (q : Query) (p : Z) : Query :=
  mkQuery (regionID q) (timeRangeStart q) (timeRangeEnd q) (numberDays q)
    (sortOrder q) p (pageSize q) (priceRangeWidth q)
    (minFreeKilometerWidth q) (minNumberSeats q) (minPrice q) (maxPrice q)
    (q_carType q) (onlyVollkasko q) (minFreeKilometer q).

(** The page numbers 1, 2, ..., n. *)
Definition page_numbers (n : nat) : list Z := map Z.of_nat (seq 1 n).

(** One search after the other, for each page number of the list. *)
Fixpoint search_pages (q : Query) (ps : list Z)
  : M (list (list SearchResultOffer)) :=
  match ps with
  | [] => mret []
  | p :: ps' =>
      r ← get_offers (with_page q p);
      rs ← search_pages q ps';
      mret (offers r :: rs)
  end.

Definition costly_offer : Offer :=
  mkOffer "b2" "BBBB" 5 0 (10 * 86400000) 5 2000 "luxury" false 250.

Definition two_offers : list Offer := [costly_offer; sample_offer].

Definition sample_world : World := world_of two_offers None.

(** An offer located in region 1 itself, the parent of region 5. *)
Definition country_offer : Offer :=
  mkOffer "c3" "CCCC" 1 0 (10 * 86400000) 4 1500 "family" true 300.

(** An offer located in region 7, a sibling of region 5. *)
Definition sibling_offer : Offer :=
  mkOffer "d4" "DDDD" 7 0 (10 * 86400000) 4 1700 "sports" false 300.

(** The sample query asked for region 5. *)
Definition city_query : Query :=
  mkQuery 5 0 (10 * 86400000) 5 "price-asc" 1 10 500 50
    None None None None None None.

(** An offer of region 5 available for two days only. *)
Definition short_offer : Offer :=
  mkOffer "e5" "EEEE" 5 0 (2 * 86400000) 4 1200 "small" true 100.

Definition five_offers : list Offer :=
  [mkOffer "o1" "AAAA" 5 0 (10 * 86400000) 4 100 "small" true 100;
   mkOffer "o2" "AAAB" 5 0 (10 * 86400000) 4 200 "small" true 100;
   mkOffer "o3" "AAAC" 5 0 (10 * 86400000) 4 300 "small" true 100;
   mkOffer "o4" "AAAD" 5 0 (10 * 86400000) 4 400 "small" true 100;
   mkOffer "o5" "AAAE" 5 0 (10 * 86400000) 4 500 "small" true 100].

(** The sample query for a given page number and page size. *)
Definition paged_query (p s : Z) : Query :=
  mkQuery 1 0 (10 * 86400000) 5 "price-asc" p s 500 50
    None None None None None None.

(** Two sort keys are the same. *)
Definition same_key (k1 k2 : Z * string) : bool :=
  (k1.1 =? k2.1) && String.eqb k1.2 k2.2.

(** The query with another sort order. *)
Definition with_sortOrder (q : Query) (order : string) : Query :=
  mkQuery (regionID q) (timeRangeStart q) (timeRangeEnd q) (numberDays q)
    order (page q) (pageSize q) (priceRangeWidth q)
    (minFreeKilometerWidth q) (minNumberSeats q) (minPrice q) (maxPrice q)
    (q_carType q) (onlyVollkasko q) (minFreeKilometer q).







(** * Properties *)

(** ** Running the handlers *)

Lemma fresh_not_offers_db (w : World) (db : list Offer) :
  store w = Some db -> fresh (dom (heap w)) <> offers_db.
Proof.
  intros Hdb Heq.
  assert (Hin : offers_db ∈ dom (heap w)) by (apply elem_of_dom; eauto).
  rewrite <- Heq in Hin.
  exact (is_fresh (dom (heap w)) Hin).
Qed.

Lemma get_offers_run (q : Query) (w : World) (db : list Offer) :
  store w = Some db ->
  get_offers q w
  = Some (mkGetOffersResponse (map to_search_result (paginated_offers q db))
            [] (mkCarTypeCount 0 0 0 0) [] [] (mkVollkaskoCount 0 0),
          searched q db w).
Proof.
  unfold store. intros Hdb.
  unfold get_offers, mbind, M_bind, read, alloc, list_sort, mbind, M_bind,
    read, write, mret, M_ret.
  cbn [heap regions_data]. rewrite Hdb. cbn [heap regions_data].
  repeat (rewrite lookup_insert_eq; cbn [heap regions_data]).
  reflexivity.
Qed.

Lemma searched_store (q : Query) (w : World) (db : list Offer) :
  store w = Some db -> store (searched q db w) = Some db.
Proof.
  intros Hdb. pose proof (fresh_not_offers_db w db Hdb) as Hne.
  unfold store, searched. cbn [heap].
  rewrite !lookup_insert_ne by exact Hne. exact Hdb.
Qed.

Lemma delete_offers_run (w : World) (db : list Offer) :
  store w = Some db ->
  delete_offers w
  = Some (mkStatusMessage "success" "All offers deleted",
          mkWorld (<[offers_db := []]> (heap w)) (regions_data w)).
Proof.
  unfold store. intros Hdb.
  unfold delete_offers, mbind, M_bind, write, mret, M_ret.
  rewrite Hdb. reflexivity.
Qed.

Lemma create_offers_run (new_offers : list Offer) (w : World)
    (db : list Offer) :
  store w = Some db ->
  create_offers new_offers w
  = Some (mkStatusMessage "success" "Offers created successfully",
          mkWorld (<[offers_db := (db ++ new_offers)%list]> (heap w))
            (regions_data w)).
Proof.
  unfold store. intros Hdb.
  unfold create_offers, mbind, M_bind, read, write, mret, M_ret.
  rewrite Hdb. cbn [heap]. rewrite Hdb. reflexivity.
Qed.

(** ** The order of sort keys *)

Lemma ascii_compare_refl (a : Ascii.ascii) : Ascii.compare a a = Eq.
Proof. unfold Ascii.compare. apply N.compare_refl. Qed.

Lemma ascii_compare_lt_trans (a b c : Ascii.ascii) :
  Ascii.compare a b = Lt -> Ascii.compare b c = Lt -> Ascii.compare a c = Lt.
Proof.
  unfold Ascii.compare. rewrite !N.compare_lt_iff. lia.
Qed.

Lemma string_compare_refl (s : string) : String.compare s s = Eq.
Proof.
  induction s as [|a s IH]; simpl; [reflexivity|].
  rewrite ascii_compare_refl. exact IH.
Qed.

Lemma string_compare_lt_trans (s1 s2 s3 : string) :
  String.compare s1 s2 = Lt -> String.compare s2 s3 = Lt ->
  String.compare s1 s3 = Lt.
Proof.
  revert s2 s3.
  induction s1 as [|a s1 IH]; intros [|b s2] [|c s3]; simpl;
    try discriminate; try reflexivity.
  destruct (Ascii.compare a b) eqn:Hab; try discriminate;
    destruct (Ascii.compare b c) eqn:Hbc; try discriminate; intros H1 H2.
  - apply Ascii.compare_eq_iff in Hab, Hbc. subst.
    rewrite ascii_compare_refl. eauto.
  - apply Ascii.compare_eq_iff in Hab. subst. rewrite Hbc. reflexivity.
  - apply Ascii.compare_eq_iff in Hbc. subst. rewrite Hab. reflexivity.
  - rewrite (ascii_compare_lt_trans a b c Hab Hbc). reflexivity.
Qed.

Lemma string_ltb_lt (s1 s2 : string) :
  String.ltb s1 s2 = true <-> String.compare s1 s2 = Lt.
Proof.
  unfold String.ltb. destruct (String.compare s1 s2); split; done.
Qed.


Lemma string_trichotomy (s1 s2 : string) :
  String.ltb s1 s2 = true \/ s1 = s2 \/ String.ltb s2 s1 = true.
Proof.
  unfold String.ltb. rewrite (String.compare_antisym s2 s1).
  destruct (String.compare s1 s2) eqn:H; simpl; auto.
  right; left. apply String.compare_eq_iff. exact H.
Qed.

Lemma key_lt_spec (k1 k2 : Z * string) :
  key_lt k1 k2 = true
  <-> k1.1 < k2.1 \/ (k1.1 = k2.1 /\ String.compare k1.2 k2.2 = Lt).
Proof.
  unfold key_lt.
  rewrite orb_true_iff, andb_true_iff, Z.ltb_lt, Z.eqb_eq, string_ltb_lt.
  reflexivity.
Qed.

Lemma key_lt_irrefl (k : Z * string) : key_lt k k = false.
Proof.
  apply not_true_is_false. rewrite key_lt_spec.
  rewrite string_compare_refl. intros [H | [_ H]]; [lia | discriminate].
Qed.

Lemma key_lt_trans (k1 k2 k3 : Z * string) :
  key_lt k1 k2 = true -> key_lt k2 k3 = true -> key_lt k1 k3 = true.
Proof.
  rewrite !key_lt_spec.
  intros [H1 | [H1 H1']] [H2 | [H2 H2']]; try (left; lia).
  right. split; [lia|]. eapply string_compare_lt_trans; eauto.
Qed.

Lemma key_trichotomy (k1 k2 : Z * string) :
  key_lt k1 k2 = true \/ k1 = k2 \/ key_lt k2 k1 = true.
Proof.
  rewrite !key_lt_spec. destruct k1 as [p1 s1], k2 as [p2 s2]. simpl.
  destruct (Z.lt_trichotomy p1 p2) as [H | [H | H]]; auto.
  subst. destruct (string_trichotomy s1 s2) as [Hs | [Hs | Hs]].
  - apply string_ltb_lt in Hs. auto.
  - subst. auto.
  - apply string_ltb_lt in Hs. auto.
Qed.

Lemma key_lt_le (k1 k2 : Z * string) : key_lt k1 k2 = true -> key_le k1 k2.
Proof.
  intros H. unfold key_le. apply not_true_is_false. intros H'.
  pose proof (key_lt_trans _ _ _ H H') as Hc.
  rewrite key_lt_irrefl in Hc. discriminate.
Qed.

Lemma key_le_trans (k1 k2 k3 : Z * string) :
  key_le k1 k2 -> key_le k2 k3 -> key_le k1 k3.
Proof.
  unfold key_le. intros H12 H23. apply not_true_is_false. intros H31.
  destruct (key_trichotomy k2 k3) as [H | [H | H]].
  - rewrite (key_lt_trans _ _ _ H H31) in H12. discriminate.
  - subst. congruence.
  - congruence.
Qed.

Lemma key_le_antisym (k1 k2 : Z * string) :
  key_le k1 k2 -> key_le k2 k1 -> k1 = k2.
Proof.
  unfold key_le. intros H1 H2.
  destruct (key_trichotomy k1 k2) as [H | [H | H]]; congruence.
Qed.


(** ** Sorting *)

Lemma insert_sorted_perm (x : Offer) (l : list Offer) :
  Permutation (insert_sorted x l) (x :: l).
Proof.
  induction l as [|y l IH]; simpl; [reflexivity|].
  destruct (key_lt (sort_key y) (sort_key x)); [|reflexivity].
  rewrite IH. apply perm_swap.
Qed.

Lemma stable_sort_perm (l : list Offer) : Permutation (stable_sort l) l.
Proof.
  induction l as [|x l IH]; simpl; [reflexivity|].
  rewrite insert_sorted_perm. constructor. exact IH.
Qed.

Lemma sorted_list_perm (r : bool) (l : list Offer) :
  Permutation (sorted_list r l) l.
Proof.
  unfold sorted_list. destruct r; [|apply stable_sort_perm].
  rewrite <- Permutation_rev, stable_sort_perm, <- Permutation_rev.
  reflexivity.
Qed.

Lemma insert_sorted_sorted (x : Offer) (l : list Offer) :
  StronglySorted offer_le l -> StronglySorted offer_le (insert_sorted x l).
Proof.
  induction l as [|y l IH]; simpl; intros Hs.
  - repeat constructor.
  - apply StronglySorted_inv in Hs. destruct Hs as [Hl Hy].
    destruct (key_lt (sort_key y) (sort_key x)) eqn:Hlt.
    + constructor; [apply IH; exact Hl|].
      rewrite insert_sorted_perm. constructor; [|exact Hy].
      apply key_lt_le. exact Hlt.
    + constructor; [constructor; assumption|].
      constructor; [exact Hlt|].
      eapply Forall_impl; [exact Hy|].
      intros z Hz. eapply key_le_trans; [exact Hlt | exact Hz].
Qed.

Lemma stable_sort_sorted (l : list Offer) :
  StronglySorted offer_le (stable_sort l).
Proof.
  induction l as [|x l IH]; simpl; [constructor|].
  apply insert_sorted_sorted. exact IH.
Qed.

Lemma StronglySorted_snoc {A} (R : A -> A -> Prop) (l : list A) (x : A) :
  StronglySorted R l -> Forall (fun y => R y x) l ->
  StronglySorted R (l ++ [x]).
Proof.
  induction l as [|y l IH]; simpl; intros Hs Hx.
  - repeat constructor.
  - apply StronglySorted_inv in Hs. destruct Hs as [Hl Hy].
    apply Forall_cons in Hx. destruct Hx as [Hyx Hx].
    constructor; [apply IH; assumption|].
    apply Forall_app. split; [exact Hy | repeat constructor; exact Hyx].
Qed.

Lemma StronglySorted_rev_flip {A} (R : A -> A -> Prop) (l : list A) :
  StronglySorted R l -> StronglySorted (fun a b => R b a) (rev l).
Proof.
  induction 1 as [|x l Hl IH Hx]; simpl; [constructor|].
  apply StronglySorted_snoc; [exact IH|].
  apply Forall_rev. exact Hx.
Qed.

(** The sorted list ascends, or descends when reversed. *)
Lemma sorted_list_sorted (r : bool) (l : list Offer) :
  StronglySorted (if r then offer_ge else offer_le) (sorted_list r l).
Proof.
  unfold sorted_list. destruct r; [|apply stable_sort_sorted].
  apply (StronglySorted_rev_flip offer_le). apply stable_sort_sorted.
Qed.


(** A slice is a run of consecutive elements of the list. *)
Lemma slice_segment {A} (l : list A) (start stop : Z) :
  exists front back, l = (front ++ slice l start stop ++ back)%list.
Proof.
  unfold slice.
  set (lo := Z.to_nat (adjust_index start (Z.of_nat (length l)))).
  set (n := Z.to_nat _).
  exists (take lo l), (drop n (drop lo l)).
  rewrite (take_drop n (drop lo l)), (take_drop lo l). reflexivity.
Qed.


(** ** Independence of the insertion order *)

Section SortedPermutation.
Context {A : Type} (R : A -> A -> Prop).

(** Two sorted arrangements of the same elements agree when the order
    tells the elements apart. *)
Lemma sorted_perm_eq (l1 l2 : list A) :
  StronglySorted R l1 -> StronglySorted R l2 -> Permutation l1 l2 ->
  (forall a b, In a l1 -> In b l1 -> R a b -> R b a -> a = b) ->
  l1 = l2.
Proof.
  revert l2. induction l1 as [|a l1 IH]; intros l2 H1 H2 Hp Hanti.
  - apply Permutation_nil in Hp. congruence.
  - destruct l2 as [|b l2].
    { apply Permutation_sym, Permutation_nil in Hp. discriminate. }
    apply StronglySorted_inv in H1. destruct H1 as [H1 Ha].
    apply StronglySorted_inv in H2. destruct H2 as [H2 Hb].
    assert (Hab : a = b).
    { assert (Hia : In a (b :: l2))
        by (eapply Permutation_in; [exact Hp | left; reflexivity]).
      assert (Hib : In b (a :: l1))
        by (eapply Permutation_in;
            [apply Permutation_sym; exact Hp | left; reflexivity]).
      destruct Hia as [Hia | Hia]; [congruence|].
      destruct Hib as [Hib | Hib]; [congruence|].
      rewrite List.Forall_forall in Ha, Hb.
      apply Hanti; [left; reflexivity | right; exact Hib | auto | auto]. }
    subst b. f_equal.
    apply IH; [exact H1 | exact H2 | |].
    + eapply Permutation_cons_inv. exact Hp.
    + intros x y Hx Hy. apply Hanti; right; assumption.
Qed.
End SortedPermutation.




Lemma filtered_offers_in (q : Query) (db : list Offer) (o : Offer) :
  In o (filtered_offers q db) -> In o db.
Proof.
  unfold filtered_offers. intros Hin.
  eapply Permutation_in in Hin; [|apply sorted_list_perm].
  apply filter_In in Hin. tauto.
Qed.


Lemma unique_ID (l : list Offer) (a b : Offer) :
  NoDup (map ID l) -> In a l -> In b l -> ID a = ID b -> a = b.
Proof.
  induction l as [|x l IH]; simpl; intros Hnd Ha Hb Hid; [contradiction|].
  apply NoDup_cons in Hnd. destruct Hnd as [Hx Hnd].
  rewrite list_elem_of_In in Hx.
  destruct Ha as [-> | Ha], Hb as [-> | Hb]; auto.
  - exfalso. apply Hx. rewrite Hid. apply in_map. exact Hb.
  - exfalso. apply Hx. rewrite <- Hid. apply in_map. exact Ha.
Qed.



(** ** Pagination *)

(** With indices that are not negative the slice is the plain window. *)
Lemma slice_window {A} (l : list A) (start n : Z) :
  0 <= start -> 0 <= n ->
  slice l start (start + n)
  = take (Z.to_nat n) (drop (Z.to_nat start) l).
Proof.
  intros Hs Hn. unfold slice, adjust_index.
  destruct (Z.ltb_spec start 0) as [?|_]; [lia|].
  destruct (Z.ltb_spec (start + n) 0) as [?|_]; [lia|].
  set (len := Z.of_nat (length l)).
  destruct (Z.le_gt_cases len start) as [Hge | Hlt].
  - rewrite (drop_ge l (Z.to_nat start)) by (subst len; lia).
    rewrite (drop_ge l (Z.to_nat (Z.min start len))) by (subst len; lia).
    rewrite !take_nil. reflexivity.
  - rewrite (Z.min_l start len) by lia.
    destruct (Z.le_gt_cases (start + n) len) as [Hfit | Hover].
    + rewrite Z.min_l by lia. f_equal. lia.
    + rewrite Z.min_r by lia.
      rewrite !take_ge; [reflexivity | |];
        rewrite length_drop; subst len; lia.
Qed.

Lemma slice_nil {A} (start stop : Z) : slice (@nil A) start stop = [].
Proof. unfold slice. rewrite drop_nil, take_nil. reflexivity. Qed.

Lemma search_pages_run (q : Query) (ps : list Z) (w : World)
    (db : list Offer) :
  store w = Some db ->
  exists w',
    search_pages q ps w
    = Some (map (fun p =>
                   map to_search_result (paginated_offers (with_page q p) db))
              ps, w')
    /\ store w' = Some db.
Proof.
  revert w. induction ps as [|p ps IH]; intros w Hdb; simpl.
  - exists w. split; [reflexivity | exact Hdb].
  - unfold mbind, M_bind. rewrite (get_offers_run _ w db Hdb).
    destruct (IH _ (searched_store (with_page q p) w db Hdb))
      as (w' & Hrun & Hdb').
    fold (@mbind M _). unfold mbind, M_bind.
    rewrite Hrun. exists w'. split; [reflexivity | exact Hdb'].
Qed.

Lemma pages_concat {A} (l : list A) (s : Z) (n : nat) :
  0 < s ->
  concat (map (fun p => slice l ((p - 1) * s) ((p - 1) * s + s))
            (page_numbers n))
  = take (n * Z.to_nat s) l.
Proof.
  intros Hs. unfold page_numbers.
  induction n as [|n IH]; [reflexivity|].
  rewrite seq_S, !map_app, concat_app, IH. simpl.
  rewrite app_nil_r, slice_window by lia.
  replace (Z.to_nat ((Z.of_nat (S n) - 1) * s))
    with (n * Z.to_nat s)%nat by lia.
  rewrite take_take_drop. f_equal. lia.
Qed.

Lemma sample_world_store : store sample_world = Some two_offers.
Proof. apply lookup_singleton_eq. Qed.

(** * The claims *)




(** C6: for a positive page size, the pages returned for the page numbers
    1, 2, ..., n, searched one after the other, put end to end are the
    filtered offers, each once and none missing, as soon as n pages are
    enough to hold them. *)
Theorem pages_partition (q : Query) (w : World) (db : list Offer) (n : nat) :
  store w = Some db ->
  0 < pageSize q ->
  Z.of_nat (length (filtered_offers q db)) <= Z.of_nat n * pageSize q ->
  exists pages,
    answer (search_pages q (page_numbers n)) w = Some pages
    /\ concat pages = map to_search_result (filtered_offers q db).
Proof.
  intros Hdb Hs Hn.
  destruct (search_pages_run q (page_numbers n) w db Hdb) as (w' & Hrun & _).
  eexists. unfold answer. rewrite Hrun. split; [reflexivity|].
  unfold paginated_offers.
  change (fun p : Z =>
            map to_search_result
              (slice (filtered_offers (with_page q p) db)
                 ((page (with_page q p) - 1) * pageSize (with_page q p))
                 ((page (with_page q p) - 1) * pageSize (with_page q p)
                  + pageSize (with_page q p))))
    with (fun p : Z =>
            map to_search_result
              (slice (filtered_offers q db) ((p - 1) * pageSize q)
                 ((p - 1) * pageSize q + pageSize q))).
  rewrite <- (map_map
                (fun p => slice (filtered_offers q db) ((p - 1) * pageSize q)
                            ((p - 1) * pageSize q + pageSize q))
                (map to_search_result)).
  cbn [fst]. rewrite <- concat_map, pages_concat by exact Hs.
  rewrite take_ge by lia. reflexivity.
Qed.

Lemma pages_partition_witness :
  store (world_of five_offers None) = Some five_offers
  /\ 0 < pageSize (paged_query 1 2)
  /\ Z.of_nat (length (filtered_offers (paged_query 1 2) five_offers))
     <= Z.of_nat 3 * pageSize (paged_query 1 2)
  /\ exists pages,
      answer (search_pages (paged_query 1 2) (page_numbers 3))
        (world_of five_offers None) = Some pages
      /\ concat pages
         = map to_search_result
             (filtered_offers (paged_query 1 2) five_offers).
Proof.
  assert (Hstore : store (world_of five_offers None) = Some five_offers)
    by apply lookup_singleton_eq.
  assert (Hsize : 0 < pageSize (paged_query 1 2)) by reflexivity.
  assert (Hfit : Z.of_nat
                   (length (filtered_offers (paged_query 1 2) five_offers))
                 <= Z.of_nat 3 * pageSize (paged_query 1 2))
    by (vm_compute; discriminate).
  split; [exact Hstore|]. split; [exact Hsize|]. split; [exact Hfit|].
  exact (pages_partition (paged_query 1 2) (world_of five_offers None)
           five_offers 3 Hstore Hsize Hfit).
Defined.

(** The three pages of size two of the five sample offers. *)
Example five_offers_in_three_pages :
  answer (search_pages (paged_query 1 2) (page_numbers 3))
    (world_of five_offers None)
  = Some [[mkSearchResultOffer "o1" "AAAA"; mkSearchResultOffer "o2" "AAAB"];
          [mkSearchResultOffer "o3" "AAAC"; mkSearchResultOffer "o4" "AAAD"];
          [mkSearchResultOffer "o5" "AAAE"]].
Proof.
  destruct (search_pages_run (paged_query 1 2) (page_numbers 3)
              (world_of five_offers None) five_offers)
    as (w' & Hrun & _); [apply lookup_singleton_eq|].
  unfold answer. rewrite Hrun. reflexivity.
Qed.

Lemma paginated_offers_nil (q : Query) : paginated_offers q [] = [].
Proof.
  unfold paginated_offers, filtered_offers, sorted_list. simpl.
  destruct (reverse_sort q); apply slice_nil.
Qed.

(** C8: after [delete_offers] the store is empty, a search with any query
    answers with an empty page and the empty facets, and deleting a second
    time leaves the same world as deleting once. *)
Theorem clear_then_search (q : Query) (w : World) (db : list Offer) :
  store w = Some db ->
  after delete_offers w ≫= store = Some []
  /\ answer (delete_offers ;; get_offers q) w = Some empty_response
  /\ after (delete_offers ;; delete_offers) w = after delete_offers w.
Proof.
  intros Hdb.
  pose proof (delete_offers_run w db Hdb) as Hdel.
  set (w1 := mkWorld (<[offers_db := []]> (heap w)) (regions_data w)) in *.
  assert (Hdb1 : store w1 = Some [])
    by (unfold store, w1; cbn [heap]; apply lookup_insert_eq).
  unfold after, answer, mbind, M_bind. rewrite Hdel. cbn [fmap option_fmap
    option_map snd fst].
  split; [exact Hdb1|]. split.
  - fold (@mbind M _).
    rewrite (get_offers_run q w1 [] Hdb1), paginated_offers_nil.
    reflexivity.
  - fold (@mbind M _).
    rewrite (delete_offers_run w1 [] Hdb1). cbn [fmap option_fmap
      option_map snd]. f_equal. unfold w1. cbn [heap regions_data]. f_equal.
    apply insert_insert_eq.
Qed.

Lemma clear_then_search_witness :
  store sample_world = Some two_offers
  /\ answer (delete_offers ;; get_offers sample_query) sample_world
     = Some empty_response.
Proof.
  split; [exact sample_world_store|].
  apply (clear_then_search sample_query sample_world two_offers
           sample_world_store).
Defined.

(** C9: a search leaves the offer store, the region data and every list
    object of the world as they were, and its response depends on the
    contents of the store and the query only: any world with the same store
    answers the same, and so does a second search after the first. *)
Theorem search_is_pure (q : Query) (w : World) (db : list Offer) :
  store w = Some db ->
  exists r w',
    get_offers q w = Some (r, w')
    /\ store w' = Some db
    /\ regions_data w' = regions_data w
    /\ (forall l v, heap w !! l = Some v -> heap w' !! l = Some v)
    /\ (forall w2, store w2 = Some db -> answer (get_offers q) w2 = Some r)
    /\ answer (get_offers q ;; get_offers q) w = Some r.
Proof.
  intros Hdb. eexists _, _. split; [apply get_offers_run; exact Hdb|].
  split; [apply searched_store; exact Hdb|].
  split; [reflexivity|]. split; [|split].
  - intros l v Hl. unfold searched. cbn [heap].
    assert (Hne : fresh (dom (heap w)) <> l).
    { intros <-. apply (is_fresh (dom (heap w))). apply elem_of_dom. eauto. }
    rewrite !lookup_insert_ne by exact Hne. exact Hl.
  - intros w2 Hdb2. unfold answer.
    rewrite (get_offers_run q w2 db Hdb2). reflexivity.
  - unfold answer, mbind, M_bind. rewrite (get_offers_run q w db Hdb).
    rewrite (get_offers_run q _ db (searched_store q w db Hdb)).
    reflexivity.
Qed.

Lemma search_is_pure_witness :
  store sample_world = Some two_offers
  /\ exists r w',
      get_offers sample_query sample_world = Some (r, w')
      /\ store w' = Some two_offers.
Proof.
  split; [exact sample_world_store|].
  destruct (search_is_pure sample_query sample_world two_offers
              sample_world_store) as (r & w' & Hrun & Hdb & _).
  exists r, w'. split; assumption.
Defined.

(** C10: whatever the store holds and whatever the query, the facets of the
    response are the same: no price range, no seat count, no free-kilometer
    range, the four car types at zero and both insurance counts at zero. *)
Theorem facets_constant (q : Query) (w : World) (db : list Offer) :
  store w = Some db ->
  exists r,
    answer (get_offers q) w = Some r
    /\ priceRanges r = []
    /\ seatsCount r = []
    /\ freeKilometerRange r = []
    /\ carTypeCounts r = mkCarTypeCount 0 0 0 0
    /\ vollkaskoCount r = mkVollkaskoCount 0 0.
Proof.
  intros Hdb. eexists. unfold answer.
  rewrite (get_offers_run q w db Hdb). cbn.
  repeat split; reflexivity.
Qed.

Lemma facets_constant_witness :
  store sample_world = Some two_offers
  /\ exists r,
      answer (get_offers sample_query) sample_world = Some r
      /\ priceRanges r = []
      /\ seatsCount r = []
      /\ freeKilometerRange r = []
      /\ carTypeCounts r = mkCarTypeCount 0 0 0 0
      /\ vollkaskoCount r = mkVollkaskoCount 0 0.
Proof.
  split; [exact sample_world_store|].
  apply (facets_constant sample_query sample_world two_offers
           sample_world_store).
Defined.

(** ** Where the source departs from the claims *)

(** C1: [matches_filters] accepts every offer, so the region is not looked
    at: with region 5 a child of region 1 and a sibling of region 7, a search
    for region 5 returns an offer of the ancestor region 1 and an offer of
    the unrelated region 7, which the region predicate of the specification
    rejects. *)
Theorem region_filter_not_applied :
  (forall o q,
      matches_filters o (build_mandatory_filters q)
        (build_optional_filters q) = true)
  /\ spec_region_ok (Some sample_tree) city_query country_offer = false
  /\ spec_region_ok (Some sample_tree) city_query sibling_offer = false
  /\ offers <$> answer (get_offers city_query)
                  (world_of [country_offer; sibling_offer]
                     (Some sample_tree))
     = Some [to_search_result country_offer;
             to_search_result sibling_offer].
Proof.
  split; [reflexivity|]. split; [reflexivity|]. split; [reflexivity|].
  unfold answer.
  rewrite (get_offers_run city_query _ [country_offer; sibling_offer])
    by apply lookup_singleton_eq.
  reflexivity.
Qed.

(** C2: the availability window is not looked at either: an offer available
    for two days is returned for a request of five days, although its
    overlap with the requested range is shorter than five days. *)
Theorem window_filter_not_applied :
  spec_region_ok (Some sample_tree) sample_query short_offer = true
  /\ Z.min (endDate short_offer) (timeRangeEnd sample_query)
     - Z.max (startDate short_offer) (timeRangeStart sample_query)
     < numberDays sample_query * 86400000
  /\ spec_window_ok sample_query short_offer = false
  /\ matches_filters short_offer (build_mandatory_filters sample_query)
       (build_optional_filters sample_query) = true
  /\ offers <$> answer (get_offers sample_query)
                  (world_of [short_offer] (Some sample_tree))
     = Some [to_search_result short_offer].
Proof.
  split; [reflexivity|]. split; [reflexivity|]. split; [reflexivity|].
  split; [reflexivity|].
  unfold answer.
  rewrite (get_offers_run sample_query _ [short_offer])
    by apply lookup_singleton_eq.
  reflexivity.
Qed.

(** C3: the facets of the response are not computed over any set of offers:
    with one matching offer in the store and no optional filter, each of the
    five facets counts that offer in the specification and none of them
    does in the response. *)
Theorem facets_not_computed :
  exists r,
    answer (get_offers sample_query)
      (world_of [sample_offer] (Some sample_tree)) = Some r
    /\ facets r = ([], mkCarTypeCount 0 0 0 0, [], [], mkVollkaskoCount 0 0)
    /\ spec_facets (Some sample_tree) sample_query [sample_offer]
       = ([mkPriceRange 1000 1500 1], mkCarTypeCount 1 0 0 0,
          [mkSeatsCount 4 1], [mkFreeKilometerRange 100 150 1],
          mkVollkaskoCount 1 0)
    /\ facets r <> spec_facets (Some sample_tree) sample_query [sample_offer].
Proof.
  eexists. unfold answer.
  rewrite (get_offers_run sample_query _ [sample_offer])
    by apply lookup_singleton_eq.
  split; [reflexivity|]. split; [reflexivity|]. split; [reflexivity|].
  discriminate.
Qed.

(** C5: a negative slice index counts from the end of the list, so a page
    number or a page size below one can return offers: of five offers,
    page -1 of size 2 is the second and the third, and page 1 of size -1
    is the first four. *)
Theorem nonpositive_page_not_empty :
  offers <$> answer (get_offers (paged_query (-1) 2))
               (world_of five_offers None)
  = Some [mkSearchResultOffer "o2" "AAAB"; mkSearchResultOffer "o3" "AAAC"]
  /\ offers <$> answer (get_offers (paged_query 1 (-1)))
                  (world_of five_offers None)
     = Some [mkSearchResultOffer "o1" "AAAA"; mkSearchResultOffer "o2" "AAAB";
             mkSearchResultOffer "o3" "AAAC"; mkSearchResultOffer "o4" "AAAD"].
Proof.
  unfold answer. split.
  - rewrite (get_offers_run _ _ five_offers) by apply lookup_singleton_eq.
    reflexivity.
  - rewrite (get_offers_run _ _ five_offers) by apply lookup_singleton_eq.
    reflexivity.
Qed.

(** C7: no price bucket is emitted, so the price of an offer in the scope of
    the price facet falls in no emitted bucket instead of exactly one. *)
Theorem price_in_no_bucket :
  exists r,
    answer (get_offers sample_query)
      (world_of [sample_offer] (Some sample_tree)) = Some r
    /\ 0 < priceRangeWidth sample_query
    /\ In sample_offer
         (spec_scope (Some sample_tree) (omit_price sample_query)
            [sample_offer])
    /\ priceRanges r = []
    /\ length (buckets_of (price sample_offer) (priceRanges r)) = 0%nat.
Proof.
  eexists. unfold answer.
  rewrite (get_offers_run sample_query _ [sample_offer])
    by apply lookup_singleton_eq.
  split; [reflexivity|]. split; [reflexivity|].
  split; [left; reflexivity|]. split; reflexivity.
Qed.

(** * Further properties of the handlers *)

(** ** The offer store under [create_offers] and [delete_offers] *)

(** X1: [create_offers] answers with its success message and appends the
    new offers, in their order, behind the stored ones; the region data and
    every other list object stay as they were. *)
Theorem create_offers_appends (new_offers : list Offer) (w : World)
    (db : list Offer) :
  store w = Some db ->
  exists w',
    create_offers new_offers w
    = Some (mkStatusMessage "success" "Offers created successfully", w')
    /\ store w' = Some (db ++ new_offers)%list
    /\ regions_data w' = regions_data w
    /\ (forall l, l <> offers_db -> heap w' !! l = heap w !! l).
Proof.
  intros Hdb. eexists. split; [apply create_offers_run; exact Hdb|].
  split; [apply lookup_insert_eq|]. split; [reflexivity|].
  intros l Hl. cbn [heap]. apply lookup_insert_ne. congruence.
Qed.

Lemma create_offers_appends_witness :
  store sample_world = Some two_offers
  /\ exists w',
      create_offers [short_offer] sample_world
      = Some (mkStatusMessage "success" "Offers created successfully", w')
      /\ store w' = Some (two_offers ++ [short_offer])%list.
Proof.
  split; [exact sample_world_store|].
  destruct (create_offers_appends [short_offer] sample_world two_offers
              sample_world_store) as (w' & Hrun & Hdb & _).
  exists w'. split; assumption.
Defined.

(** X2: two calls of [create_offers] in a row leave the world that one
    call with the two lists put together leaves. *)
Theorem create_offers_twice (xs ys : list Offer) (w : World)
    (db : list Offer) :
  store w = Some db ->
  after (create_offers xs ;; create_offers ys) w
  = after (create_offers (xs ++ ys)%list) w.
Proof.
  intros Hdb. unfold after, mbind, M_bind.
  rewrite (create_offers_run xs w db Hdb).
  rewrite (create_offers_run (xs ++ ys) w db Hdb).
  rewrite (create_offers_run ys _ (db ++ xs)) by apply lookup_insert_eq.
  cbn [fmap option_fmap option_map snd heap regions_data].
  rewrite insert_insert_eq, app_assoc. reflexivity.
Qed.

Lemma create_offers_twice_witness :
  store sample_world = Some two_offers
  /\ after (create_offers [short_offer] ;; create_offers [country_offer])
       sample_world
     = after (create_offers [short_offer; country_offer]) sample_world.
Proof.
  split; [exact sample_world_store|].
  apply (create_offers_twice [short_offer] [country_offer] sample_world
           two_offers sample_world_store).
Defined.

(** X3: [delete_offers] after [create_offers] leaves the world that
    [delete_offers] alone leaves: nothing of what was created remains. *)
Theorem create_then_delete (new_offers : list Offer) (w : World)
    (db : list Offer) :
  store w = Some db ->
  after (create_offers new_offers ;; delete_offers) w
  = after delete_offers w.
Proof.
  intros Hdb. unfold after, mbind, M_bind.
  rewrite (create_offers_run new_offers w db Hdb).
  rewrite (delete_offers_run w db Hdb).
  rewrite (delete_offers_run _ (db ++ new_offers))
    by apply lookup_insert_eq.
  cbn [fmap option_fmap option_map snd heap regions_data].
  rewrite insert_insert_eq. reflexivity.
Qed.

Lemma create_then_delete_witness :
  store sample_world = Some two_offers
  /\ after (create_offers [short_offer] ;; delete_offers) sample_world
     = after delete_offers sample_world.
Proof.
  split; [exact sample_world_store|].
  apply (create_then_delete [short_offer] sample_world two_offers
           sample_world_store).
Defined.

(** ** What a search returns *)

Lemma filtered_offers_store (q : Query) (db : list Offer) :
  Permutation (filtered_offers q db) db.
Proof.
  unfold filtered_offers. rewrite sorted_list_perm.
  unfold matches_filters. rewrite filter_true. reflexivity.
Qed.

(** X4: every entry of the returned page is the identifier and the payload
    of an offer of the store. *)
Theorem page_of_stored_offers (q : Query) (w : World) (db : list Offer) :
  store w = Some db ->
  exists r,
    answer (get_offers q) w = Some r
    /\ forall x, In x (offers r) ->
                 exists o, In o db /\ x = to_search_result o.
Proof.
  intros Hdb. eexists. unfold answer.
  rewrite (get_offers_run q w db Hdb). split; [reflexivity|].
  cbn [fst offers]. intros x Hx.
  apply in_map_iff in Hx. destruct Hx as (o & <- & Ho).
  exists o. split; [|reflexivity].
  unfold paginated_offers in Ho.
  destruct (slice_segment (filtered_offers q db)
              ((page q - 1) * pageSize q)
              ((page q - 1) * pageSize q + pageSize q))
    as (front & back & Hseg).
  eapply Permutation_in; [apply filtered_offers_store|].
  rewrite Hseg. apply in_or_app. right. apply in_or_app. left. exact Ho.
Qed.

Lemma page_of_stored_offers_witness :
  store sample_world = Some two_offers
  /\ exists r,
      answer (get_offers sample_query) sample_world = Some r
      /\ forall x, In x (offers r) ->
                   exists o, In o two_offers /\ x = to_search_result o.
Proof.
  split; [exact sample_world_store|].
  apply (page_of_stored_offers sample_query sample_world two_offers
           sample_world_store).
Defined.

(** X5: offers just created are found: on page 1, with a page size that
    holds the whole store, the search after [create_offers] returns every
    offer of the store, old and new, each once. *)
Theorem create_then_search_all (q : Query) (new_offers : list Offer)
    (w : World) (db : list Offer) :
  store w = Some db ->
  page q = 1 ->
  Z.of_nat (length (db ++ new_offers)) <= pageSize q ->
  exists r,
    answer (create_offers new_offers ;; get_offers q) w = Some r
    /\ Permutation (offers r) (map to_search_result (db ++ new_offers)).
Proof.
  intros Hdb Hp Hs. eexists. unfold answer, mbind, M_bind.
  rewrite (create_offers_run new_offers w db Hdb).
  rewrite (get_offers_run q _ (db ++ new_offers)) by apply lookup_insert_eq.
  split; [reflexivity|]. cbn [fst offers].
  apply Permutation_map. unfold paginated_offers.
  rewrite Hp. change ((1 - 1) * pageSize q) with 0.
  rewrite slice_window by lia. rewrite drop_0, take_ge.
  - apply filtered_offers_store.
  - rewrite (Permutation_length (filtered_offers_store q _)). lia.
Qed.

Lemma create_then_search_all_witness :
  store sample_world = Some two_offers
  /\ exists r,
      answer (create_offers [short_offer] ;; get_offers sample_query)
        sample_world = Some r
      /\ Permutation (offers r)
           (map to_search_result (two_offers ++ [short_offer])).
Proof.
  split; [exact sample_world_store|].
  apply (create_then_search_all sample_query [short_offer] sample_world
           two_offers sample_world_store);
    vm_compute; [reflexivity | discriminate].
Defined.

(** ** Pages at and beyond the bounds *)

Lemma slice_empty {A} (l : list A) (start stop : Z) :
  adjust_index stop (Z.of_nat (length l))
  <= adjust_index start (Z.of_nat (length l)) ->
  slice l start stop = [].
Proof.
  intros Hle. unfold slice.
  replace (Z.to_nat _) with 0%nat by lia. apply take_0.
Qed.

Lemma slice_length_le {A} (l : list A) (start n : Z) :
  0 <= n -> (length (slice l start (start + n)) <= Z.to_nat n)%nat.
Proof.
  intros Hn. unfold slice. rewrite length_take.
  etransitivity; [apply Nat.le_min_l|].
  unfold adjust_index.
  destruct (Z.ltb_spec start 0), (Z.ltb_spec (start + n) 0); lia.
Qed.

(** X6: for a page number and a page size of at least one, entry [k] of
    the page, for [k] below the page size, is the offer at offset
    [(page - 1) * pageSize + k] of the sorted offers, absent when the list
    ends before; the page has no further entry. *)
Theorem page_window (q : Query) (w : World) (db : list Offer) :
  store w = Some db ->
  1 <= page q ->
  1 <= pageSize q ->
  exists r,
    answer (get_offers q) w = Some r
    /\ (forall k : nat,
           (k < Z.to_nat (pageSize q))%nat ->
           offers r !! k
           = to_search_result
               <$> filtered_offers q db
                   !! (Z.to_nat ((page q - 1) * pageSize q) + k)%nat)
    /\ (length (offers r) <= Z.to_nat (pageSize q))%nat.
Proof.
  intros Hdb Hp Hs. eexists. unfold answer.
  rewrite (get_offers_run q w db Hdb). split; [reflexivity|].
  cbn [fst offers]. unfold paginated_offers.
  rewrite slice_window by nia. split.
  - intros k Hk.
    change (map to_search_result ?l) with (to_search_result <$> l).
    rewrite list_lookup_fmap, lookup_take_lt, lookup_drop by exact Hk.
    reflexivity.
  - rewrite length_map, length_take. apply Nat.le_min_l.
Qed.

Lemma page_window_witness :
  store sample_world = Some two_offers
  /\ exists r,
      answer (get_offers sample_query) sample_world = Some r
      /\ (length (offers r) <= Z.to_nat (pageSize sample_query))%nat.
Proof.
  split; [exact sample_world_store|].
  destruct (page_window sample_query sample_world two_offers
              sample_world_store) as (r & Hr & _ & Hlen);
    [vm_compute; discriminate | vm_compute; discriminate |].
  exists r. split; assumption.
Defined.

(** X7: a page that starts at or behind the end of the store is empty. *)
Theorem page_past_the_end (q : Query) (w : World) (db : list Offer) :
  store w = Some db ->
  1 <= page q ->
  0 <= pageSize q ->
  Z.of_nat (length db) <= (page q - 1) * pageSize q ->
  exists r, answer (get_offers q) w = Some r /\ offers r = [].
Proof.
  intros Hdb Hp Hs Hend. eexists. unfold answer.
  rewrite (get_offers_run q w db Hdb). split; [reflexivity|].
  cbn [fst offers]. unfold paginated_offers.
  rewrite slice_window by nia.
  rewrite drop_ge, take_nil; [reflexivity|].
  rewrite (Permutation_length (filtered_offers_store q db)). lia.
Qed.

Lemma page_past_the_end_witness :
  store sample_world = Some two_offers
  /\ exists r,
      answer (get_offers (paged_query 2 2)) sample_world = Some r
      /\ offers r = [].
Proof.
  split; [exact sample_world_store|].
  apply (page_past_the_end (paged_query 2 2) sample_world two_offers
           sample_world_store); vm_compute; discriminate.
Defined.

(** X8: the page is empty for page number zero, for page size zero, and
    for a negative page size with any page number but one. *)
Theorem page_empty_at_zero (q : Query) (w : World) (db : list Offer) :
  store w = Some db ->
  page q = 0 \/ pageSize q = 0 \/ (pageSize q < 0 /\ page q <> 1) ->
  exists r, answer (get_offers q) w = Some r /\ offers r = [].
Proof.
  intros Hdb Hcase. eexists. unfold answer.
  rewrite (get_offers_run q w db Hdb). split; [reflexivity|].
  cbn [fst offers]. unfold paginated_offers.
  rewrite slice_empty; [reflexivity|].
  set (len := Z.of_nat (length (filtered_offers q db))).
  assert (Hlen : 0 <= len) by (subst len; lia).
  set (a := (page q - 1) * pageSize q).
  assert (Ha : page q = 0 /\ a = - pageSize q
               \/ pageSize q = 0 /\ a = 0
               \/ pageSize q < 0 /\ (a < 0 /\ a + pageSize q < 0
                                     \/ 0 <= a /\ 0 <= a + pageSize q)).
  { subst a. destruct Hcase as [H0 | [H0 | [Hneg Hne]]].
    - left. split; [exact H0|]. rewrite H0. lia.
    - right; left. split; [exact H0|]. rewrite H0. lia.
    - right; right. split; [exact Hneg|].
      destruct (Z.le_gt_cases 2 (page q)); [left; nia | right; nia]. }
  clearbody a len. unfold adjust_index.
  destruct (Z.ltb_spec a 0), (Z.ltb_spec (a + pageSize q) 0); lia.
Qed.

Lemma page_empty_at_zero_witness :
  store sample_world = Some two_offers
  /\ exists r,
      answer (get_offers (paged_query 0 1)) sample_world = Some r
      /\ offers r = [].
Proof.
  split; [exact sample_world_store|].
  apply (page_empty_at_zero (paged_query 0 1) sample_world two_offers
           sample_world_store).
  left. reflexivity.
Defined.

(** X9: with a page size that is not negative, the page never holds more
    offers than the page size, whatever the page number, negative ones
    included. *)
Theorem page_length_bound (q : Query) (w : World) (db : list Offer) :
  store w = Some db ->
  0 <= pageSize q ->
  exists r,
    answer (get_offers q) w = Some r
    /\ Z.of_nat (length (offers r)) <= pageSize q.
Proof.
  intros Hdb Hs. eexists. unfold answer.
  rewrite (get_offers_run q w db Hdb). split; [reflexivity|].
  cbn [fst offers]. unfold paginated_offers. rewrite length_map.
  pose proof (slice_length_le (filtered_offers q db)
                ((page q - 1) * pageSize q) (pageSize q) Hs).
  lia.
Qed.

Lemma page_length_bound_witness :
  store sample_world = Some two_offers
  /\ exists r,
      answer (get_offers (paged_query (-1) 1)) sample_world = Some r
      /\ Z.of_nat (length (offers r)) <= pageSize (paged_query (-1) 1).
Proof.
  split; [exact sample_world_store|].
  apply (page_length_bound (paged_query (-1) 1) sample_world two_offers
           sample_world_store).
  vm_compute. discriminate.
Defined.

(** ** The sort: ties and the two orders *)

Lemma same_key_eq (k1 k2 : Z * string) : same_key k1 k2 = true <-> k1 = k2.
Proof.
  unfold same_key. destruct k1 as [p1 s1], k2 as [p2 s2]. simpl.
  rewrite andb_true_iff, Z.eqb_eq, String.eqb_eq.
  split; [intros [-> ->]; reflexivity | intros [= -> ->]; auto].
Qed.

Lemma insert_sorted_same_key (k : Z * string) (x : Offer) (l : list Offer) :
  List.filter (fun o => same_key (sort_key o) k) (insert_sorted x l)
  = List.filter (fun o => same_key (sort_key o) k) (x :: l).
Proof.
  induction l as [|y l IH]; [reflexivity|].
  cbn [insert_sorted].
  destruct (key_lt (sort_key y) (sort_key x)) eqn:Hlt; [|reflexivity].
  cbn [List.filter] in *. rewrite IH.
  destruct (same_key (sort_key x) k) eqn:Hx;
    destruct (same_key (sort_key y) k) eqn:Hy; try reflexivity.
  apply same_key_eq in Hx, Hy. rewrite Hx, Hy, key_lt_irrefl in Hlt.
  discriminate.
Qed.

Lemma stable_sort_same_key (k : Z * string) (l : list Offer) :
  List.filter (fun o => same_key (sort_key o) k) (stable_sort l)
  = List.filter (fun o => same_key (sort_key o) k) l.
Proof.
  induction l as [|x l IH]; [reflexivity|].
  cbn [stable_sort foldr]. fold (stable_sort l).
  rewrite insert_sorted_same_key. cbn [List.filter]. rewrite IH.
  reflexivity.
Qed.

(** X10: the sort is stable in both orders: the offers that share a price
    and an identifier come, in the sorted list, in the order in which they
    were stored. *)
Theorem sort_keeps_ties (q : Query) (db : list Offer) (k : Z * string) :
  List.filter (fun o => same_key (sort_key o) k) (filtered_offers q db)
  = List.filter (fun o => same_key (sort_key o) k) db.
Proof.
  unfold filtered_offers, matches_filters. rewrite filter_true.
  unfold sorted_list. destruct (reverse_sort q).
  - rewrite List.filter_rev, stable_sort_same_key, List.filter_rev, rev_involutive.
    reflexivity.
  - apply stable_sort_same_key.
Qed.

Lemma descending_reversed (q : Query) (db : list Offer) :
  sortOrder q = "price-desc" ->
  NoDup (map ID db) ->
  filtered_offers q db
  = rev (filtered_offers (with_sortOrder q "price-asc") db).
Proof.
  intros Hord Hnd.
  apply (sorted_perm_eq offer_ge).
  - unfold filtered_offers, reverse_sort. rewrite Hord.
    apply (sorted_list_sorted true).
  - apply (StronglySorted_rev_flip offer_le).
    apply (sorted_list_sorted false).
  - rewrite <- Permutation_rev, !filtered_offers_store. reflexivity.
  - intros a b Ha Hb H1 H2.
    apply (unique_ID db); try (eapply filtered_offers_in; eassumption);
      [exact Hnd|].
    pose proof (key_le_antisym _ _ H1 H2) as Hk.
    unfold sort_key in Hk. congruence.
Qed.

(** X11: with identifiers that are unique and a page that holds the whole
    store, the page for [price-desc] is the page for [price-asc] read
    backwards. *)
Theorem descending_page_reversed (q : Query) (w : World) (db : list Offer) :
  store w = Some db ->
  NoDup (map ID db) ->
  sortOrder q = "price-desc" ->
  page q = 1 ->
  Z.of_nat (length db) <= pageSize q ->
  exists r r',
    answer (get_offers q) w = Some r
    /\ answer (get_offers (with_sortOrder q "price-asc")) w = Some r'
    /\ offers r = rev (offers r').
Proof.
  intros Hdb Hnd Hord Hp Hs. eexists _, _. unfold answer.
  rewrite !(get_offers_run _ w db Hdb).
  split; [reflexivity|]. split; [reflexivity|].
  cbn [fst offers]. unfold paginated_offers.
  cbn [page pageSize with_sortOrder]. rewrite Hp.
  change ((1 - 1) * pageSize q) with 0.
  rewrite !slice_window by lia. rewrite !drop_0, !take_ge.
  - rewrite (descending_reversed q db Hord Hnd). apply map_rev.
  - rewrite (Permutation_length (filtered_offers_store _ db)). lia.
  - rewrite (Permutation_length (filtered_offers_store _ db)). lia.
Qed.

Lemma descending_page_reversed_witness :
  store sample_world = Some two_offers
  /\ exists r r',
      answer (get_offers (with_sortOrder sample_query "price-desc"))
        sample_world = Some r
      /\ answer (get_offers
                   (with_sortOrder
                      (with_sortOrder sample_query "price-desc")
                      "price-asc"))
           sample_world = Some r'
      /\ offers r = rev (offers r').
Proof.
  split; [exact sample_world_store|].
  apply (descending_page_reversed
           (with_sortOrder sample_query "price-desc") sample_world
           two_offers sample_world_store).
  - repeat constructor; rewrite ?list_elem_of_In; simpl;
      intros H; repeat destruct H as [H | H]; try discriminate H; exact H.
  - reflexivity.
  - reflexivity.
  - vm_compute. discriminate.
Defined.

(** ** What a search depends on *)

(** X12: the answer of a search depends on the store and on the sort
    order, the page number and the page size only: the region, the time
    range, the number of days, the two widths and the six optional filters
    of the query have no effect on it. *)
Theorem search_ignores_filters (q q' : Query) (w : World)
    (db : list Offer) :
  store w = Some db ->
  sortOrder q = sortOrder q' ->
  page q = page q' ->
  pageSize q = pageSize q' ->
  answer (get_offers q) w = answer (get_offers q') w.
Proof.
  intros Hdb Hord Hp Hs. unfold answer.
  rewrite !(get_offers_run _ w db Hdb). cbn [fmap option_fmap option_map fst].
  do 2 f_equal. unfold paginated_offers, filtered_offers, reverse_sort,
    matches_filters.
  rewrite !filter_true, Hord, Hp, Hs. reflexivity.
Qed.

Lemma search_ignores_filters_witness :
  store sample_world = Some two_offers
  /\ answer (get_offers sample_query) sample_world
     = answer (get_offers city_query) sample_world.
Proof.
  split; [exact sample_world_store|].
  apply (search_ignores_filters sample_query city_query sample_world
           two_offers sample_world_store); reflexivity.
Defined.

(** ** The dictionary of optional filters *)

(** X13: [optional_filters] holds a key exactly for each optional parameter
    that was supplied, under the parameter's name and with its value; a
    parameter left out has no key. *)
Theorem optional_filters_supplied (q : Query) (k : string) (v : PyVal) :
  build_optional_filters q !! k = Some v
  <-> (k = "minNumberSeats" /\ VInt <$> minNumberSeats q = Some v)
      \/ (k = "minPrice" /\ VInt <$> minPrice q = Some v)
      \/ (k = "maxPrice" /\ VInt <$> maxPrice q = Some v)
      \/ (k = "carType" /\ VStr <$> q_carType q = Some v)
      \/ (k = "onlyVollkasko" /\ VBool <$> onlyVollkasko q = Some v)
      \/ (k = "minFreeKilometer" /\ VInt <$> minFreeKilometer q = Some v).
Proof.
  unfold build_optional_filters. rewrite lookup_omap_id_Some. split.
  - intros H. apply elem_of_list_to_map_2 in H.
    repeat (apply elem_of_cons in H; destruct H as [[= -> H] | H]);
      eauto 10.
    apply elem_of_nil in H. contradiction.
  - cbn [list_to_map foldr].
    intros [[-> H] | [[-> H] | [[-> H] | [[-> H] | [[-> H] | [-> H]]]]]];
      repeat (rewrite lookup_insert_ne by done);
      rewrite lookup_insert_eq; f_equal; exact H.
Qed.

Lemma optional_filters_supplied_witness :
  build_optional_filters
    (mkQuery 1 0 (10 * 86400000) 5 "price-asc" 1 10 500 50
       None (Some 100) None None None None)
  !! "minPrice" = Some (VInt 100).
Proof.
  apply (optional_filters_supplied
           (mkQuery 1 0 (10 * 86400000) 5 "price-asc" 1 10 500 50
              None (Some 100) None None None None)
           "minPrice" (VInt 100)).
  right; left. split; reflexivity.
Defined.
